(** * Envoy admin server: handler registry, request lifecycle and
      Prometheus formatter (source/server/http/admin.h).

    This development embeds the declarations of admin.h; the bodies of
    AdminImpl's and AdminFilter's members live in admin.cc, outside it.  Each definition whose body is
    not in the header is marked "Modelled from the spec:"; its signature
    follows the declaration in admin.h. *)

From Stdlib Require Import String Ascii List Bool Arith NArith Lia Sorted Permutation DecimalString.
Import ListNotations.
Local Open Scope string_scope.
Local Open Scope list_scope.

Local Notation "a +s+ b" := (String.append a b) (at level 60, right associativity).

(** ** Http::Code *)
Module Http.
Inductive Code := OK | BadRequest | NotFound | MethodNotAllowed.

Definition code_value (c : Code) : nat :=
  match c with
  | OK => 200 | BadRequest => 400 | NotFound => 404 | MethodNotAllowed => 405
  end.
End Http.
Import Http.

(** ** AdminImpl::UrlHandler and the registry [handlers_] *)
Module Admin.

(** [HandlerCb]: path_and_query -> (code, text appended to the response).
    As in [runCallback]'s declaration, the only request input is the path
    and query string. *)
Definition HandlerCb := string -> Code * string.

Record UrlHandler := mkUrlHandler {
  prefix_ : string;
  help_text_ : string;
  handler_ : HandlerCb;
  removable_ : bool;
  mutates_server_state_ : bool
}.

(** [std::list<UrlHandler> handlers_] *)
Definition Handlers := list UrlHandler.

Definition prefixes (hs : Handlers) : list string := map prefix_ hs.

(** Modelled from the spec: HandlerRegistry.lookup, exact match on the path. *)
Fixpoint lookup (hs : Handlers) (path : string) : option UrlHandler :=
  match hs with
  | [] => None
  | h :: t => if String.eqb (prefix_ h) path then Some h else lookup t path
  end.

(** Modelled from the spec: AdminImpl::addHandler -- fails without mutation
    when the prefix is registered, appends otherwise. *)
Definition addHandler (hs : Handlers) (prefix help_text : string)
    (callback : HandlerCb) (removable mutates_server_state : bool)
    : bool * Handlers :=
  match lookup hs prefix with
  | Some _ => (false, hs)
  | None => (true, hs ++ [mkUrlHandler prefix help_text callback removable
                                       mutates_server_state])
  end.

(** Modelled from the spec: AdminImpl::removeHandler -- fails when the
    prefix is absent or the matching handler is not removable; otherwise
    the matching handler is erased. *)
Fixpoint removeHandler (hs : Handlers) (prefix : string) : bool * Handlers :=
  match hs with
  | [] => (false, [])
  | h :: t =>
      if String.eqb (prefix_ h) prefix then
        if removable_ h then (true, t) else (false, hs)
      else let '(ok, t') := removeHandler t prefix in (ok, h :: t')
  end.

(** Modelled from the spec: AdminImpl::sortedHandlers -- all handlers
    ordered by ascending prefix, computed on each call. *)
Fixpoint insert_by_prefix (h : UrlHandler) (hs : Handlers) : Handlers :=
  match hs with
  | [] => [h]
  | h' :: t => if String.leb (prefix_ h) (prefix_ h') then h :: hs
               else h' :: insert_by_prefix h t
  end.

Fixpoint sortedHandlers (hs : Handlers) : Handlers :=
  match hs with
  | [] => []
  | h :: t => insert_by_prefix h (sortedHandlers t)
  end.

(** A sequence of registry mutations, as issued by callers of
    addHandler / removeHandler. *)
Inductive RegistryOp :=
| OpAdd (prefix help_text : string) (cb : HandlerCb) (removable mutates : bool)
| OpRemove (prefix : string).

Definition apply_op (hs : Handlers) (op : RegistryOp) : Handlers :=
  match op with
  | OpAdd p ht cb r m => snd (addHandler hs p ht cb r m)
  | OpRemove p => snd (removeHandler hs p)
  end.

Definition apply_ops (hs : Handlers) (ops : list RegistryOp) : Handlers :=
  fold_left apply_op ops hs.

Definition count_prefix (hs : Handlers) (p : string) : nat :=
  length (filter (fun h => String.eqb (prefix_ h) p) hs).

Definition prefix_le (a b : UrlHandler) : Prop :=
  String.leb (prefix_ a) (prefix_ b) = true.

End Admin.

(** ** AdminImpl::runCallback and the help page *)
Module Dispatch.
Import Admin.

Definition nl : string := String (ascii_of_nat 10) EmptyString.

(** The path component of [path_and_query]: everything before the first
    '?' (the whole string when there is none). *)
Fixpoint path_of (path_and_query : string) : string :=
  match path_and_query with
  | EmptyString => EmptyString
  | String c rest =>
      if Ascii.eqb c "?"%char then EmptyString else String c (path_of rest)
  end.

(** Modelled from the spec: AdminImpl::handlerHelp, one line per handler,
    in the order of sortedHandlers. *)
Definition help_line (h : UrlHandler) : string :=
  "  " +s+ prefix_ h +s+ ": " +s+ help_text_ h +s+ nl.

Definition handlerHelp (hs : Handlers) : string :=
  "admin commands are:" +s+ nl +s+ String.concat "" (map help_line (sortedHandlers hs)).

(** Result of one runCallback: status, response text, and the handlers
    invoked, each with the argument it received (the side-effect log). *)
Record DispatchResult := mkDispatchResult {
  dr_code : Code;
  dr_body : string;
  dr_invoked : list (string * string)
}.

(** Modelled from the spec: AdminImpl::runCallback.  Its declared inputs are
    [path_and_query] and the output buffers only: the request method and
    body are not parameters.  Split off the query, look the path up; run
    the handler when found, else 404 with the help page. *)
Definition runCallback (hs : Handlers) (path_and_query : string) : DispatchResult :=
  match lookup hs (path_of path_and_query) with
  | Some h =>
      let '(code, text) := handler_ h path_and_query in
      mkDispatchResult code text [(prefix_ h, path_and_query)]
  | None =>
      mkDispatchResult NotFound ("invalid path. " +s+ handlerHelp hs) []
  end.

End Dispatch.

(** ** AdminFilter: the per-request lifecycle *)
Module Lifecycle.
Import Admin Dispatch.

Inductive Phase := AwaitingHeaders | Buffering | Complete | Dispatched.

Definition phase_eqb (a b : Phase) : bool :=
  match a, b with
  | AwaitingHeaders, AwaitingHeaders | Buffering, Buffering
  | Complete, Complete | Dispatched, Dispatched => true
  | _, _ => false
  end.

Record RequestHeaders := mkRequestHeaders { Method : string; Path : string }.

(** Filter state: [request_headers_] as declared in AdminFilter; the phase
    and the buffered body are the RequestContext of the spec. *)
Record FilterState := mkFilterState {
  phase : Phase;
  request_headers_ : option RequestHeaders;
  buffered_body : string;
  response : option (Code * string);
  invocations : list (string * string);
  dispatches : nat
}.

Definition initial_state : FilterState :=
  mkFilterState AwaitingHeaders None EmptyString None [] 0.

Inductive Event :=
| DecodeHeaders (headers : RequestHeaders) (end_stream : bool)
| DecodeData (data : string) (end_stream : bool)
| DecodeTrailers.

(** Modelled from the spec: AdminFilter::onComplete -- one call of
    parent_.runCallback on the request path, the only dispatch entry
    AdminFilter can reach (UrlHandler and handlers_ are private to
    AdminImpl). *)
Definition onComplete (hs : Handlers) (st : FilterState) : FilterState :=
  match request_headers_ st with
  | Some h =>
      let r := runCallback hs (Path h) in
      mkFilterState Dispatched (Some h) (buffered_body st)
                    (Some (dr_code r, dr_body r))
                    (invocations st ++ dr_invoked r) (S (dispatches st))
  | None => st
  end.

Definition set_complete (st : FilterState) : FilterState :=
  mkFilterState Complete (request_headers_ st) (buffered_body st)
                (response st) (invocations st) (dispatches st).

(** Modelled from the spec: decodeHeaders / decodeData / decodeTrailers. *)
Definition step (hs : Handlers) (st : FilterState) (ev : Event) : FilterState :=
  match ev with
  | DecodeHeaders h end_stream =>
      if phase_eqb (phase st) AwaitingHeaders then
        let st' := mkFilterState Buffering (Some h) (buffered_body st)
                                 (response st) (invocations st) (dispatches st) in
        if end_stream then onComplete hs (set_complete st') else st'
      else st
  | DecodeData data end_stream =>
      if phase_eqb (phase st) Buffering then
        let st' := mkFilterState Buffering (request_headers_ st)
                                 (buffered_body st +s+ data)
                                 (response st) (invocations st) (dispatches st) in
        if end_stream then onComplete hs (set_complete st') else st'
      else st
  | DecodeTrailers =>
      if phase_eqb (phase st) Buffering then onComplete hs (set_complete st)
      else st
  end.

Definition run (hs : Handlers) (st : FilterState) (evs : list Event) : FilterState :=
  fold_left (step hs) evs st.

(** A body delivered as data chunks, none of them ending the stream. *)
Definition data_events (chunks : list string) : list Event :=
  map (fun c => DecodeData c false) chunks.

Definition is_late_event (ev : Event) : bool :=
  match ev with DecodeHeaders _ _ => false | _ => true end.

(** Whether an event can end the request: end_stream on headers or data,
    and trailers always. *)
Definition completes (ev : Event) : bool :=
  match ev with
  | DecodeHeaders _ end_stream | DecodeData _ end_stream => end_stream
  | DecodeTrailers => true
  end.

End Lifecycle.

(** ** PrometheusStatsFormatter *)
Module Prometheus.

(** [A-Za-z0-9_] *)
Definition is_name_char (c : ascii) : bool :=
  let n := nat_of_ascii c in
  (Nat.leb 65 n && Nat.leb n 90) || (Nat.leb 97 n && Nat.leb n 122)
  || (Nat.leb 48 n && Nat.leb n 57) || Nat.eqb n 95.

Definition underscore : ascii := "_"%char.

(** Modelled from the spec: sanitizeName -- every character outside
    [A-Za-z0-9_] becomes '_'. *)
Definition sanitize_char (c : ascii) : ascii :=
  if is_name_char c then c else underscore.

Fixpoint sanitizeName (name : string) : string :=
  match name with
  | EmptyString => EmptyString
  | String c rest => String (sanitize_char c) (sanitizeName rest)
  end.

(** Modelled from the spec: metricName -- "envoy_" prefix. *)
Definition metricName (extractedName : string) : string :=
  "envoy_" +s+ sanitizeName extractedName.

Definition quote : string := String (ascii_of_nat 34) EmptyString.

(** Modelled from the spec: formattedTags -- name="value" pairs joined by
    ',', in the given order, values unescaped. *)
Definition formattedTags (tags : list (string * string)) : string :=
  String.concat "," (map (fun '(k, v) => k +s+ "=" +s+ quote +s+ v +s+ quote) tags).

Record MetricSample := mkMetricSample {
  ms_name : string;
  ms_value : N;
  ms_tags : list (string * string)
}.

Definition value_string (v : N) : string :=
  DecimalString.NilZero.string_of_uint (N.to_uint v).

Definition type_line (name kind : string) : string :=
  "# TYPE " +s+ name +s+ " " +s+ kind.

Definition sample_line (name : string) (s : MetricSample) : string :=
  name +s+ "{" +s+ formattedTags (ms_tags s) +s+ "} " +s+ value_string (ms_value s).

(** One pass over a sample list: the tracker holds the canonical names whose
    TYPE line has been emitted; the response is a list of lines. *)
Fixpoint emit (kind : string) (samples : list MetricSample)
    (tracker response : list string) : list string * list string :=
  match samples with
  | [] => (tracker, response)
  | s :: rest =>
      let name := metricName (ms_name s) in
      let '(tracker', response') :=
        if existsb (String.eqb name) tracker then (tracker, response)
        else (tracker ++ [name], response ++ [type_line name kind]) in
      emit kind rest tracker' (response' ++ [sample_line name s])
  end.

(** Modelled from the spec: statsAsPrometheus -- returns the number of
    metric types inserted, with the response lines. *)
Definition statsAsPrometheus (counters gauges : list MetricSample) : nat * list string :=
  let '(t1, r1) := emit "counter" counters [] [] in
  let '(t2, r2) := emit "gauge" gauges t1 r1 in
  (length t2, r2).

Fixpoint starts_with (pre s : string) : bool :=
  match pre, s with
  | EmptyString, _ => true
  | String a pre', String b s' => Ascii.eqb a b && starts_with pre' s'
  | _, _ => false
  end.

Definition is_type_line (line : string) : bool := starts_with "# TYPE " line.

(** The families emitted: the TYPE lines of the response. *)
Definition type_lines (response : list string) : list string :=
  filter is_type_line response.

(** [A-Za-z0-9] *)
Definition is_alnum (c : ascii) : bool :=
  is_name_char c && negb (Ascii.eqb c underscore).

(** The characters sanitization collapses into '_': '_' itself and every
    character outside [A-Za-z0-9_]. *)
Definition collapses (c : ascii) : bool :=
  negb (is_name_char c) || Ascii.eqb c underscore.

(** Two names differ only in characters collapsed by sanitization: same
    length, and at each position the characters are equal or both collapse
    to '_'. *)
Fixpoint differ_only_collapsed (a b : string) : bool :=
  match a, b with
  | EmptyString, EmptyString => true
  | String c1 r1, String c2 r2 =>
      (Ascii.eqb c1 c2 || (collapses c1 && collapses c2))
      && differ_only_collapsed r1 r2
  | _, _ => false
  end.

Definition canonical (s : MetricSample) : string := metricName (ms_name s).

End Prometheus.

(** * Properties *)

(** ** Concrete runs *)
Module Examples.
Import Admin Dispatch.

Definition ok_cb (text : string) : HandlerCb := fun _ => (OK, text).

Definition builtins : Handlers :=
  [ mkUrlHandler "/stats" "print server stats" (ok_cb "s") false false;
    mkUrlHandler "/healthcheck/fail" "cause the server to fail health checks" (ok_cb "OK") false true;
    mkUrlHandler "/certs" "print certs on machine" (ok_cb "c") false false ].

Example add_fresh :
  fst (addHandler builtins "/foo" "foo" (ok_cb "f") true false) = true.
Proof. reflexivity. Qed.

Example add_again :
  fst (addHandler (snd (addHandler builtins "/foo" "foo" (ok_cb "f") true false))
                  "/foo" "foo2" (ok_cb "g") true false) = false.
Proof. reflexivity. Qed.

Example remove_builtin : fst (removeHandler builtins "/stats") = false.
Proof. reflexivity. Qed.

Example sorted_builtins :
  prefixes (sortedHandlers builtins) = ["/certs"; "/healthcheck/fail"; "/stats"].
Proof. reflexivity. Qed.

Example not_found_code : dr_code (runCallback builtins "/nope?x=1") = NotFound.
Proof. reflexivity. Qed.

Example query_stripped : dr_invoked (runCallback builtins "/stats?format=json")
                         = [("/stats", "/stats?format=json")].
Proof. reflexivity. Qed.

End Examples.

(** ** Registry lemmas *)
Module RegistryFacts.
Import Admin Dispatch.

Lemma lookup_some (hs : Handlers) (p : string) (h : UrlHandler) :
  lookup hs p = Some h -> prefix_ h = p /\ In h hs.
Proof.
  induction hs as [|h' t IH]; simpl; [discriminate|].
  destruct (String.eqb_spec (prefix_ h') p) as [E|E].
  - intros [= <-]. auto.
  - intros Hl. destruct (IH Hl). auto.
Qed.

Lemma lookup_none_iff (hs : Handlers) (p : string) :
  lookup hs p = None <-> ~ In p (prefixes hs).
Proof.
  induction hs as [|h t IH]; simpl; [tauto|].
  destruct (String.eqb_spec (prefix_ h) p) as [E|E].
  - split; [discriminate|]. intros N. exfalso. apply N. auto.
  - rewrite IH. intuition.
Qed.

Lemma lookup_in (hs : Handlers) (p : string) :
  In p (prefixes hs) -> exists h, lookup hs p = Some h.
Proof.
  intros Hin. destruct (lookup hs p) as [h|] eqn:E; eauto.
  apply lookup_none_iff in E. contradiction.
Qed.

Lemma count_prefix_app (l1 l2 : Handlers) (p : string) :
  count_prefix (l1 ++ l2) p = count_prefix l1 p + count_prefix l2 p.
Proof. unfold count_prefix. rewrite filter_app, length_app. reflexivity. Qed.

Lemma count_prefix_absent (hs : Handlers) (p : string) :
  ~ In p (prefixes hs) -> count_prefix hs p = 0.
Proof.
  induction hs as [|h t IH]; simpl; [reflexivity|]. intros N.
  unfold count_prefix in *; simpl.
  destruct (String.eqb_spec (prefix_ h) p) as [E|E]; [exfalso; auto|].
  apply IH. auto.
Qed.

Lemma count_prefix_unique (hs : Handlers) (p : string) :
  NoDup (prefixes hs) -> In p (prefixes hs) -> count_prefix hs p = 1.
Proof.
  induction hs as [|h t IH]; simpl; [contradiction|].
  intros Hnd Hin. inversion Hnd as [|x l Hnin Hnd']; subst.
  unfold count_prefix in *; simpl.
  destruct (String.eqb_spec (prefix_ h) p) as [E|E].
  - subst. simpl. f_equal. apply count_prefix_absent. exact Hnin.
  - apply IH; auto. destruct Hin; [contradiction|auto].
Qed.

Lemma addHandler_nodup (hs : Handlers) p ht cb r m :
  NoDup (prefixes hs) -> NoDup (prefixes (snd (addHandler hs p ht cb r m))).
Proof.
  unfold addHandler. destruct (lookup hs p) eqn:E; simpl; [auto|].
  intros Hnd. apply lookup_none_iff in E. unfold prefixes in *.
  rewrite map_app. simpl. apply NoDup_app; auto using NoDup_cons, NoDup_nil.
  intros x Hx [Hy|[]]. subst. contradiction.
Qed.

Lemma removeHandler_sub (hs : Handlers) (p x : string) :
  In x (prefixes (snd (removeHandler hs p))) -> In x (prefixes hs).
Proof.
  induction hs as [|h t IH]; simpl; [auto|].
  destruct (String.eqb (prefix_ h) p); [destruct (removable_ h); simpl; auto|].
  destruct (removeHandler t p) as [ok t'] eqn:E. simpl in *.
  intros [H|H]; auto.
Qed.

Lemma removeHandler_nodup (hs : Handlers) (p : string) :
  NoDup (prefixes hs) -> NoDup (prefixes (snd (removeHandler hs p))).
Proof.
  induction hs as [|h t IH]; simpl; [auto|]. intros Hnd.
  inversion Hnd as [|y l Hnin Hnd']; subst.
  destruct (String.eqb (prefix_ h) p); [destruct (removable_ h); simpl; auto|].
  pose proof (removeHandler_sub t p) as Hsub.
  destruct (removeHandler t p) as [ok t'] eqn:E. simpl in *.
  constructor; auto.
Qed.

Lemma apply_ops_nodup (hs : Handlers) (ops : list RegistryOp) :
  NoDup (prefixes hs) -> NoDup (prefixes (apply_ops hs ops)).
Proof.
  revert hs. induction ops as [|op ops IH]; simpl; [auto|].
  intros hs Hnd. apply IH. destruct op; simpl.
  - apply addHandler_nodup; auto.
  - apply removeHandler_nodup; auto.
Qed.

(** Insertion sort: sortedness and permutation. *)
Lemma leb_flip (a b : string) : String.leb a b = false -> String.leb b a = true.
Proof. intros H. destruct (String.leb_total a b); congruence. Qed.

Lemma insert_perm (h : UrlHandler) (hs : Handlers) :
  Permutation (insert_by_prefix h hs) (h :: hs).
Proof.
  induction hs as [|h' t IH]; simpl; [auto|].
  destruct (String.leb (prefix_ h) (prefix_ h')); [auto|].
  eapply perm_trans; [apply perm_skip, IH|]. apply perm_swap.
Qed.

Lemma insert_sorted (h : UrlHandler) (hs : Handlers) :
  Sorted prefix_le hs -> Sorted prefix_le (insert_by_prefix h hs).
Proof.
  induction hs as [|h' t IH]; simpl; intros Hs; [auto|].
  unfold prefix_le in *.
  destruct (String.leb (prefix_ h) (prefix_ h')) eqn:E.
  - constructor; auto.
  - apply Sorted_inv in Hs as [Ht Hhd]. constructor; [auto|].
    destruct t as [|h'' t']; simpl.
    + constructor. apply leb_flip; auto.
    + destruct (String.leb (prefix_ h) (prefix_ h'')).
      * constructor. apply leb_flip; auto.
      * inversion Hhd; subst. constructor. auto.
Qed.

Lemma sortedHandlers_perm (hs : Handlers) : Permutation (sortedHandlers hs) hs.
Proof.
  induction hs as [|h t IH]; simpl; [auto|].
  eapply perm_trans; [apply insert_perm|]. auto.
Qed.

Lemma sortedHandlers_sorted (hs : Handlers) : Sorted prefix_le (sortedHandlers hs).
Proof. induction hs; simpl; auto using insert_sorted. Qed.

End RegistryFacts.

Module RegistryClaims.
Import Admin Dispatch RegistryFacts.

(** C4: in every registry reachable from a seed with distinct prefixes,
    addHandler on a registered prefix returns false, leaves the registry
    unchanged and the registry holds exactly one handler for it; on an
    unregistered prefix it returns true and appends the new handler. *)
Theorem addHandler_unique_prefix (hs0 : Handlers) (ops : list RegistryOp)
    (Hseed : NoDup (prefixes hs0)) (p ht : string) (cb : HandlerCb) (r m : bool) :
  let hs := apply_ops hs0 ops in
  (In p (prefixes hs) ->
     addHandler hs p ht cb r m = (false, hs) /\ count_prefix hs p = 1) /\
  (~ In p (prefixes hs) ->
     addHandler hs p ht cb r m = (true, hs ++ [mkUrlHandler p ht cb r m])).
Proof.
  intros hs. pose proof (apply_ops_nodup hs0 ops Hseed) as Hnd. fold hs in Hnd.
  split.
  - intros Hin. destruct (lookup_in hs p Hin) as [h Hl].
    unfold addHandler. rewrite Hl. split; [reflexivity|].
    apply count_prefix_unique; auto.
  - intros Hn. unfold addHandler. apply lookup_none_iff in Hn. rewrite Hn.
    reflexivity.
Qed.

Lemma addHandler_unique_prefix_witness :
  NoDup (prefixes Examples.builtins) /\
  addHandler (apply_ops Examples.builtins [OpAdd "/foo" "foo" (Examples.ok_cb "f") true false])
             "/foo" "again" (Examples.ok_cb "g") true false
  = (false, apply_ops Examples.builtins [OpAdd "/foo" "foo" (Examples.ok_cb "f") true false]).
Proof.
  assert (H : NoDup (prefixes Examples.builtins)).
  { simpl. repeat constructor; simpl; intuition discriminate. }
  split; [exact H|].
  apply (addHandler_unique_prefix Examples.builtins
           [OpAdd "/foo" "foo" (Examples.ok_cb "f") true false] H
           "/foo" "again" (Examples.ok_cb "g") true false).
  simpl. tauto.
Defined.

(** C5: removeHandler fails without mutation when the prefix is absent or
    its handler is not removable (which then stays resolvable); when the
    handler is removable it returns true and erases exactly that handler. *)
Theorem removeHandler_removable_only (hs : Handlers) (p : string) :
  (lookup hs p = None -> removeHandler hs p = (false, hs)) /\
  (forall h, lookup hs p = Some h -> removable_ h = false ->
     removeHandler hs p = (false, hs) /\ lookup (snd (removeHandler hs p)) p = Some h) /\
  (forall h, lookup hs p = Some h -> removable_ h = true ->
     exists l1 l2, hs = l1 ++ h :: l2 /\ ~ In p (prefixes l1) /\
                   removeHandler hs p = (true, l1 ++ l2)).
Proof.
  induction hs as [|h0 t IH]; simpl.
  - split; [auto|]. split; intros h H; discriminate.
  - destruct (String.eqb_spec (prefix_ h0) p) as [E|E].
    + split; [discriminate|]. split.
      * intros h [= <-] Hr. rewrite Hr. simpl.
        rewrite (proj2 (String.eqb_eq _ _) E). auto.
      * intros h [= <-] Hr. rewrite Hr. exists [], t. simpl. auto.
    + destruct IH as [IH1 [IH2 IH3]].
      destruct (removeHandler t p) as [ok t'] eqn:Er.
      split; [|split].
      * intros Hl. specialize (IH1 Hl). inversion IH1; subst. reflexivity.
      * intros h Hl Hr. destruct (IH2 h Hl Hr) as [Heq Hl']. inversion Heq; subst.
        simpl. split; [reflexivity|].
        destruct (String.eqb_spec (prefix_ h0) p); [contradiction|exact Hl].
      * intros h Hl Hr. destruct (IH3 h Hl Hr) as [l1 [l2 [Ht [Hn Heq]]]].
        inversion Heq; subst. exists (h0 :: l1), l2. simpl.
        split; [reflexivity|]. split; [intuition|reflexivity].
Qed.

Lemma removeHandler_removable_only_witness :
  lookup Examples.builtins "/stats" = Some (hd (mkUrlHandler "" "" (Examples.ok_cb "") false false) Examples.builtins) /\
  removeHandler Examples.builtins "/stats" = (false, Examples.builtins).
Proof.
  split; [reflexivity|].
  apply (proj1 (proj1 (proj2 (removeHandler_removable_only Examples.builtins "/stats"))
         (hd (mkUrlHandler "" "" (Examples.ok_cb "") false false) Examples.builtins)
         eq_refl eq_refl)).
Defined.

(** C6: after any sequence of addHandler / removeHandler calls, sortedHandlers
    is in non-decreasing lexicographic order of prefix and is a permutation
    of the current registry. *)
Theorem sortedHandlers_after_ops (hs0 : Handlers) (ops : list RegistryOp) :
  Sorted prefix_le (sortedHandlers (apply_ops hs0 ops)) /\
  Permutation (sortedHandlers (apply_ops hs0 ops)) (apply_ops hs0 ops).
Proof. split; [apply sortedHandlers_sorted|apply sortedHandlers_perm]. Qed.

(** C3: a path with no registered handler is answered with 404, the body
    "invalid path. " followed by the help page listing every handler with
    its help text in sortedHandlers order; no handler runs. *)
Theorem runCallback_unknown_path (hs : Handlers) (path_and_query : string)
    (Hunknown : ~ In (path_of path_and_query) (prefixes hs)) :
  code_value (dr_code (runCallback hs path_and_query)) = 404 /\
  dr_body (runCallback hs path_and_query)
    = "invalid path. " +s+ "admin commands are:" +s+ nl
      +s+ String.concat "" (map help_line (sortedHandlers hs)) /\
  dr_invoked (runCallback hs path_and_query) = [].
Proof.
  unfold runCallback. apply lookup_none_iff in Hunknown. rewrite Hunknown.
  simpl. auto.
Qed.

Lemma runCallback_unknown_path_witness :
  ~ In (path_of "/nope?x=1") (prefixes Examples.builtins) /\
  code_value (dr_code (runCallback Examples.builtins "/nope?x=1")) = 404.
Proof.
  assert (H : ~ In (path_of "/nope?x=1") (prefixes Examples.builtins)).
  { simpl. intuition discriminate. }
  split; [exact H|]. apply (runCallback_unknown_path Examples.builtins "/nope?x=1" H).
Defined.

End RegistryClaims.

(** ** Lifecycle lemmas *)
Module LifecycleFacts.
Import Admin Dispatch Lifecycle.

Lemma append_assoc_s (a b c : string) : (a +s+ b) +s+ c = a +s+ (b +s+ c).
Proof. induction a; simpl; congruence. Qed.

Lemma append_empty_r (a : string) : a +s+ EmptyString = a.
Proof. induction a; simpl; congruence. Qed.

Lemma step_dispatched (hs : Handlers) (st : FilterState) (ev : Event) :
  phase st = Dispatched -> step hs st ev = st.
Proof. intros E. destruct ev; simpl; rewrite E; reflexivity. Qed.

Lemma run_dispatched (hs : Handlers) (st : FilterState) (evs : list Event) :
  phase st = Dispatched -> run hs st evs = st.
Proof.
  unfold run. revert st. induction evs as [|ev evs IH]; simpl; [auto|].
  intros st E. rewrite step_dispatched by exact E. auto.
Qed.

Lemma run_app (hs : Handlers) (st : FilterState) (e1 e2 : list Event) :
  run hs st (e1 ++ e2) = run hs (run hs st e1) e2.
Proof. unfold run. apply fold_left_app. Qed.

(** Data chunks without end of stream only append to the buffered body. *)
Lemma run_data_events (hs : Handlers) h body resp invs n (chunks : list string) :
  run hs (mkFilterState Buffering (Some h) body resp invs n) (data_events chunks)
  = mkFilterState Buffering (Some h) (body +s+ String.concat "" chunks) resp invs n.
Proof.
  unfold run. revert body. induction chunks as [|c cs IH]; intros body; simpl.
  - rewrite append_empty_r. reflexivity.
  - rewrite IH. f_equal. rewrite append_assoc_s. f_equal.
    destruct cs; simpl; [apply append_empty_r|reflexivity].
Qed.

End LifecycleFacts.

Module LifecycleClaims.
Import Admin Dispatch Lifecycle LifecycleFacts.

(** C1 (counterexample): a GET to the registered route "/healthcheck/fail",
    whose handler has mutates_server_state_ = true, is not answered with
    405: the handler runs and its own status is returned. *)
Lemma mutating_route_get_runs_handler :
  let st := run Examples.builtins initial_state
                [DecodeHeaders (mkRequestHeaders "GET" "/healthcheck/fail") true] in
  option_map mutates_server_state_ (lookup Examples.builtins "/healthcheck/fail") = Some true /\
  "GET" <> "POST" /\
  response st = Some (OK, "OK") /\
  invocations st = [("/healthcheck/fail", "/healthcheck/fail")] /\
  response st <> None /\ option_map fst (response st) <> Some MethodNotAllowed.
Proof. simpl. repeat split; discriminate. Qed.

(** C1 (as the code does it): the request method never reaches dispatch.
    For every registered path, whatever the method and whatever the
    handler's mutates_server_state_ flag, a header-only request runs the
    handler once on its path and query and returns the handler's status and
    text. *)
Theorem dispatch_ignores_method (hs : Handlers) (method path_and_query : string)
    (h : UrlHandler) (Hreg : lookup hs (path_of path_and_query) = Some h) :
  let st := run hs initial_state
                [DecodeHeaders (mkRequestHeaders method path_and_query) true] in
  response st = Some (handler_ h path_and_query) /\
  invocations st = [(prefix_ h, path_and_query)] /\
  dispatches st = 1.
Proof.
  simpl. unfold onComplete, runCallback. simpl. rewrite Hreg.
  destruct (handler_ h path_and_query) as [c t]. simpl. auto.
Qed.

Lemma dispatch_ignores_method_witness :
  lookup Examples.builtins (path_of "/healthcheck/fail")
    = Some (nth 1 Examples.builtins (mkUrlHandler "" "" (Examples.ok_cb "") false false)) /\
  response (run Examples.builtins initial_state
              [DecodeHeaders (mkRequestHeaders "GET" "/healthcheck/fail") true])
    = Some (OK, "OK").
Proof.
  split; [reflexivity|].
  apply (dispatch_ignores_method Examples.builtins "GET" "/healthcheck/fail"
           (nth 1 Examples.builtins (mkUrlHandler "" "" (Examples.ok_cb "") false false))
           eq_refl).
Defined.

(** C2 (counterexample): the body is buffered but never handed to the
    handler: two requests to "/stats" with bodies "abcd" and "" give the
    handler the same input and produce the same response. *)
Lemma body_not_passed_to_handler :
  let st1 := run Examples.builtins initial_state
               (DecodeHeaders (mkRequestHeaders "POST" "/stats") false
                  :: data_events ["ab"; "cd"] ++ [DecodeTrailers]) in
  let st2 := run Examples.builtins initial_state
               [DecodeHeaders (mkRequestHeaders "POST" "/stats") false; DecodeTrailers] in
  buffered_body st1 = "abcd" /\
  invocations st1 = [("/stats", "/stats")] /\
  ~ In "abcd" (map snd (invocations st1)) /\
  invocations st1 = invocations st2 /\ response st1 = response st2.
Proof. simpl. repeat split; try reflexivity. simpl. intuition discriminate. Qed.

(** C2 (as the code does it): headers without end of stream, any number of
    data chunks, then trailers: exactly one dispatch, of the request's
    path and query alone (the body is buffered, not passed); every later
    event is a no-op. *)
Theorem trailers_dispatch_once (hs : Handlers) (headers : RequestHeaders)
    (chunks : list string) (later : list Event) :
  let st := run hs initial_state
              (DecodeHeaders headers false :: data_events chunks ++ DecodeTrailers :: later) in
  let r := runCallback hs (Path headers) in
  st = mkFilterState Dispatched (Some headers) (String.concat "" chunks)
                     (Some (dr_code r, dr_body r)) (dr_invoked r) 1.
Proof.
  simpl. change (fold_left (step hs) ?l ?s) with (run hs s l).
  rewrite run_app, run_data_events. simpl.
  apply run_dispatched. reflexivity.
Qed.

End LifecycleClaims.

(** ** Prometheus formatter lemmas *)
Module PrometheusFacts.
Import Prometheus.

Example sanitize_example : metricName "cluster.foo.upstream_cx_total"
                           = "envoy_cluster_foo_upstream_cx_total".
Proof. reflexivity. Qed.

Example merged_example : metricName "a.b" = metricName "a/b".
Proof. reflexivity. Qed.

Example count_merged :
  fst (statsAsPrometheus [mkMetricSample "a.b" 1 []; mkMetricSample "a/b" 2 []] []) = 1.
Proof. reflexivity. Qed.

Example count_distinct :
  fst (statsAsPrometheus
         [mkMetricSample "cluster.foo.upstream_cx_total" 1 [("cluster", "foo")];
          mkMetricSample "cluster.bar.upstream_cx_total" 2 [("cluster", "bar")]] []) = 2.
Proof. reflexivity. Qed.

Lemma underscore_name_char : is_name_char underscore = true.
Proof. reflexivity. Qed.

Lemma sanitize_char_name (c : ascii) : is_name_char (sanitize_char c) = true.
Proof.
  unfold sanitize_char. destruct (is_name_char c) eqn:E; [exact E|reflexivity].
Qed.

Lemma sanitize_char_idem (c : ascii) : is_name_char c = true -> sanitize_char c = c.
Proof. unfold sanitize_char. intros ->. reflexivity. Qed.

Lemma sanitize_char_eq (c1 c2 : ascii) :
  sanitize_char c1 = sanitize_char c2 <->
  (Ascii.eqb c1 c2 || (collapses c1 && collapses c2)) = true.
Proof.
  unfold sanitize_char, collapses.
  destruct (is_name_char c1) eqn:N1, (is_name_char c2) eqn:N2; simpl;
    destruct (Ascii.eqb_spec c1 c2) as [E|E]; simpl;
    destruct (Ascii.eqb_spec c1 underscore) as [U1|U1];
    destruct (Ascii.eqb_spec c2 underscore) as [U2|U2]; simpl;
    try (subst; congruence); intuition congruence.
Qed.

Lemma metricName_eq_iff (a b : string) :
  metricName a = metricName b <-> sanitizeName a = sanitizeName b.
Proof.
  unfold metricName; simpl. split.
  - intros H. repeat (injection H as H). exact H.
  - intros ->. reflexivity.
Qed.

Lemma sanitizeName_eq_iff (a b : string) :
  sanitizeName a = sanitizeName b <-> differ_only_collapsed a b = true.
Proof.
  revert b. induction a as [|c1 r1 IH]; intros [|c2 r2]; simpl;
    try (split; intros H; discriminate H).
  - tauto.
  - rewrite andb_true_iff, <- sanitize_char_eq, <- IH. split.
    + intros H. injection H as H1 H2. auto.
    + intros [-> ->]. reflexivity.
Qed.

Lemma alnum_sanitize (c : ascii) : is_alnum c = true ->
  sanitize_char c = c /\ c <> underscore.
Proof.
  unfold is_alnum. rewrite andb_true_iff, negb_true_iff. intros [N U].
  split; [apply sanitize_char_idem; exact N|].
  intros E. subst. discriminate U.
Qed.

Lemma sanitize_char_alnum_neq (c1 c2 : ascii) :
  c1 <> c2 -> is_alnum c1 = true -> sanitize_char c1 <> sanitize_char c2.
Proof.
  intros Hne Ha. destruct (alnum_sanitize c1 Ha) as [E1 U]. rewrite E1.
  unfold sanitize_char. destruct (is_name_char c2); [exact Hne|].
  exact U.
Qed.

Lemma sanitizeName_get (i : nat) (s : string) :
  String.get i (sanitizeName s) = option_map sanitize_char (String.get i s).
Proof.
  revert s. induction i as [|i IH]; intros [|c r]; simpl; auto.
Qed.

(** The tracker and TYPE-line bookkeeping of one [emit] pass. *)
Lemma type_lines_snoc (r : list string) (l : string) :
  type_lines (r ++ [l]) = type_lines r ++ (if is_type_line l then [l] else []).
Proof.
  unfold type_lines. rewrite filter_app. simpl. destruct (is_type_line l); reflexivity.
Qed.

Lemma type_line_is (n k : string) : is_type_line (type_line n k) = true.
Proof. reflexivity. Qed.

Lemma sample_line_not (n : string) (s : MetricSample) :
  is_type_line (sample_line (metricName n) s) = false.
Proof. reflexivity. Qed.

Lemma emit_spec (kind : string) (samples : list MetricSample)
    (tracker resp t' r' : list string) :
  NoDup tracker -> emit kind samples tracker resp = (t', r') ->
  NoDup t' /\
  (forall x, In x t' <-> In x tracker \/ In x (map canonical samples)) /\
  length (type_lines r') + length tracker = length (type_lines resp) + length t'.
Proof.
  revert tracker resp. induction samples as [|s rest IH]; intros tracker resp Hnd Hem;
    cbn [emit map] in *.
  - injection Hem as <- <-. split; [exact Hnd|]. split; [simpl; tauto|lia].
  - set (name := metricName (ms_name s)) in *. change (canonical s) with name.
    destruct (existsb (String.eqb name) tracker) eqn:Ex.
    + destruct (IH _ _ Hnd Hem) as [H1 [H2 H3]]. split; [exact H1|]. split.
      * intros x. rewrite H2. apply existsb_exists in Ex as [y [Hy Ey]].
        apply String.eqb_eq in Ey. subst y. simpl.
        split; [tauto|]. intros [Hx|[Hx|Hx]]; [auto|subst; auto|auto].
      * rewrite type_lines_snoc in H3. unfold name in H3.
        rewrite sample_line_not, app_nil_r in H3. lia.
    + assert (Hnd' : NoDup (tracker ++ [name])).
      { apply NoDup_app; auto using NoDup_cons, NoDup_nil.
        intros x Hx [Hy|[]]. subst x.
        assert (existsb (String.eqb name) tracker = true) by
          (apply existsb_exists; exists name; split; [exact Hx|apply String.eqb_refl]).
        congruence. }
      destruct (IH _ _ Hnd' Hem) as [H1 [H2 H3]]. split; [exact H1|]. split.
      * intros x. rewrite H2, in_app_iff. simpl. tauto.
      * rewrite !type_lines_snoc in H3. unfold name in H3.
        rewrite sample_line_not, type_line_is, app_nil_r, length_app, length_app in H3.
        simpl in H3. lia.
Qed.

Lemma nodup_same_elements_length (l1 l2 : list string) :
  NoDup l1 -> NoDup l2 -> (forall x, In x l1 <-> In x l2) -> length l1 = length l2.
Proof.
  intros N1 N2 E. apply Nat.le_antisymm; apply NoDup_incl_length; auto;
    intros x; apply E.
Qed.

End PrometheusFacts.

Module PrometheusClaims.
Import Prometheus PrometheusFacts.

(** C7: the canonical name is "envoy_" followed by the name with every
    character outside [A-Za-z0-9_] replaced by '_'; two names share a
    canonical name (one family) exactly when they differ only in characters
    that sanitization collapses to '_', and names differing at some position
    in an alphanumeric character stay in distinct families. *)
Theorem metricName_families (a b : string) :
  metricName a = "envoy_" +s+ sanitizeName a /\
  (forall i c, String.get i a = Some c ->
     String.get i (sanitizeName a) = Some (if is_name_char c then c else "_"%char)) /\
  (metricName a = metricName b <-> differ_only_collapsed a b = true) /\
  (forall i c1 c2, String.get i a = Some c1 -> String.get i b = Some c2 -> c1 <> c2 ->
     (is_alnum c1 || is_alnum c2) = true -> metricName a <> metricName b).
Proof.
  split; [reflexivity|]. split; [|split].
  - intros i c Hc. rewrite sanitizeName_get, Hc. reflexivity.
  - rewrite metricName_eq_iff. apply sanitizeName_eq_iff.
  - intros i c1 c2 H1 H2 Hne Ha Heq. apply metricName_eq_iff in Heq.
    apply (f_equal (String.get i)) in Heq. rewrite !sanitizeName_get, H1, H2 in Heq.
    simpl in Heq. injection Heq as Heq.
    apply orb_true_iff in Ha as [Ha|Ha].
    + exact (sanitize_char_alnum_neq c1 c2 Hne Ha Heq).
    + exact (sanitize_char_alnum_neq c2 c1 (not_eq_sym Hne) Ha (eq_sym Heq)).
Qed.

Lemma metricName_families_witness :
  metricName "a.b" = metricName "a/b" /\ metricName "a.b" <> metricName "a.c".
Proof.
  split.
  - apply (proj2 (proj1 (proj2 (proj2 (metricName_families "a.b" "a/b"))))). reflexivity.
  - apply (proj2 (proj2 (proj2 (metricName_families "a.b" "a.c"))) 2 "b"%char "c"%char);
      [reflexivity|reflexivity|discriminate|reflexivity].
Defined.

(** C10: sanitization is idempotent, so re-canonicalising the sanitized part
    of a canonical name changes nothing. *)
Theorem sanitizeName_idempotent (s : string) :
  sanitizeName (sanitizeName s) = sanitizeName s /\
  metricName (sanitizeName s) = metricName s.
Proof.
  assert (H : sanitizeName (sanitizeName s) = sanitizeName s).
  { induction s as [|c r IH]; simpl; [reflexivity|].
    rewrite IH, sanitize_char_idem by apply sanitize_char_name. reflexivity. }
  split; [exact H|]. unfold metricName. rewrite H. reflexivity.
Qed.

(** C8: the value returned by statsAsPrometheus is the number of TYPE lines
    (metric families) in the response, equal to the number of distinct
    canonical names among the counters and gauges; it is 0 exactly when
    both inputs are empty. *)
Theorem statsAsPrometheus_counts_families (counters gauges : list MetricSample) :
  let '(n, response) := statsAsPrometheus counters gauges in
  n = length (type_lines response) /\
  n = length (nodup string_dec (map canonical (counters ++ gauges))) /\
  (n = 0 <-> counters = [] /\ gauges = []).
Proof.
  unfold statsAsPrometheus.
  destruct (emit "counter" counters [] []) as [t1 r1] eqn:E1.
  destruct (emit "gauge" gauges t1 r1) as [t2 r2] eqn:E2.
  destruct (emit_spec _ _ _ _ _ _ (NoDup_nil _) E1) as [N1 [I1 L1]].
  destruct (emit_spec _ _ _ _ _ _ N1 E2) as [N2 [I2 L2]].
  simpl in L1. 
  assert (Hlen : length t2 = length (nodup string_dec (map canonical (counters ++ gauges)))).
  { apply nodup_same_elements_length; [exact N2|apply NoDup_nodup|].
    intros x. rewrite nodup_In, I2, I1, map_app, in_app_iff. simpl. tauto. }
  split; [lia|]. split; [exact Hlen|]. split.
  - intros H0. destruct t2 as [|x t2']; [|discriminate H0].
    split.
    + destruct counters as [|c cs]; [reflexivity|].
      exfalso. apply (proj2 (I2 (canonical c))). left. apply (proj2 (I1 (canonical c))).
      right. left. reflexivity.
    + destruct gauges as [|g gs]; [reflexivity|].
      exfalso. apply (proj2 (I2 (canonical g))). right. left. reflexivity.
  - intros [-> ->]. simpl in E1. injection E1 as <- <-. simpl in E2.
    injection E2 as <- <-. reflexivity.
Qed.

End PrometheusClaims.

(** * Further properties of the registry, dispatch, lifecycle and formatter *)

Module RegistryExtra.
Import Admin Dispatch RegistryFacts.

Lemma lookup_app (l1 l2 : Handlers) (q : string) :
  lookup (l1 ++ l2) q = match lookup l1 q with Some h => Some h | None => lookup l2 q end.
Proof.
  induction l1 as [|h t IH]; simpl; [reflexivity|].
  destruct (String.eqb (prefix_ h) q); [reflexivity|exact IH].
Qed.

(** Handlers registered as not removable survive every sequence of
    addHandler / removeHandler calls. *)
Theorem non_removable_survive (hs0 : Handlers) (ops : list RegistryOp) (h : UrlHandler)
    (Hin : In h hs0) (Hfixed : removable_ h = false) :
  In h (apply_ops hs0 ops).
Proof.
  unfold apply_ops. revert hs0 Hin. induction ops as [|op ops IH]; simpl; [auto|].
  intros hs0 Hin. apply IH. destruct op as [p ht cb r m|p]; simpl.
  - unfold addHandler. destruct (lookup hs0 p); simpl; [exact Hin|].
    apply in_or_app. left. exact Hin.
  - clear IH. induction hs0 as [|h0 t IHt]; simpl; [contradiction|].
    destruct (String.eqb (prefix_ h0) p).
    + destruct (removable_ h0) eqn:R; simpl; [|exact Hin].
      destruct Hin as [E|E]; [subst; congruence|exact E].
    + destruct (removeHandler t p) as [ok t'] eqn:Er. simpl in *.
      destruct Hin as [E|E]; [left; exact E|right; apply IHt; exact E].
Qed.

Lemma non_removable_survive_witness :
  In (hd (mkUrlHandler "" "" (Examples.ok_cb "") false false) Examples.builtins)
     (apply_ops Examples.builtins [OpRemove "/stats"; OpAdd "/stats" "x" (Examples.ok_cb "x") true false]).
Proof.
  apply (non_removable_survive Examples.builtins _ _); [left; reflexivity|reflexivity].
Defined.

(** Adding a removable handler under a fresh prefix and then removing that
    prefix succeeds and restores the registry. *)
Theorem add_then_remove (hs : Handlers) (p ht : string) (cb : HandlerCb) (m : bool)
    (Hfresh : ~ In p (prefixes hs)) :
  fst (addHandler hs p ht cb true m) = true /\
  removeHandler (snd (addHandler hs p ht cb true m)) p = (true, hs).
Proof.
  unfold addHandler. pose proof Hfresh as Hn. apply lookup_none_iff in Hn. rewrite Hn.
  split; [reflexivity|]. simpl. clear Hn.
  induction hs as [|h t IH]; simpl; [rewrite String.eqb_refl; reflexivity|].
  destruct (String.eqb_spec (prefix_ h) p) as [E|E].
  - exfalso. apply Hfresh. left. exact E.
  - rewrite IH by (intros Hi; apply Hfresh; right; exact Hi). reflexivity.
Qed.

Lemma add_then_remove_witness :
  ~ In "/foo" (prefixes Examples.builtins) /\
  removeHandler (snd (addHandler Examples.builtins "/foo" "f" (Examples.ok_cb "f") true false)) "/foo"
  = (true, Examples.builtins).
Proof.
  assert (H : ~ In "/foo" (prefixes Examples.builtins)) by (simpl; intuition discriminate).
  split; [exact H|]. apply (add_then_remove Examples.builtins "/foo" "f" (Examples.ok_cb "f") false H).
Defined.

(** After a successful addHandler, lookup of the new prefix finds the new
    handler and lookup of every other prefix is unchanged. *)
Theorem lookup_after_add (hs : Handlers) (p ht : string) (cb : HandlerCb) (r m : bool)
    (q : string) (Hfresh : ~ In p (prefixes hs)) :
  lookup (snd (addHandler hs p ht cb r m)) q
  = if String.eqb p q then Some (mkUrlHandler p ht cb r m) else lookup hs q.
Proof.
  unfold addHandler. pose proof Hfresh as Hn. apply lookup_none_iff in Hn. rewrite Hn.
  simpl. rewrite lookup_app. simpl.
  destruct (String.eqb_spec p q) as [E|E].
  - subst. rewrite Hn. reflexivity.
  - destruct (lookup hs q); reflexivity.
Qed.

Lemma lookup_after_add_witness :
  ~ In "/foo" (prefixes Examples.builtins) /\
  lookup (snd (addHandler Examples.builtins "/foo" "f" (Examples.ok_cb "f") true false)) "/stats"
  = lookup Examples.builtins "/stats".
Proof.
  assert (H : ~ In "/foo" (prefixes Examples.builtins)) by (simpl; intuition discriminate).
  split; [exact H|].
  apply (lookup_after_add Examples.builtins "/foo" "f" (Examples.ok_cb "f") true false "/stats" H).
Defined.

(** In a registry with distinct prefixes, a successful removeHandler of p
    makes p unresolvable and leaves lookup of every other prefix unchanged. *)
Theorem lookup_after_remove (hs : Handlers) (p q : string)
    (Hnd : NoDup (prefixes hs)) (Hok : fst (removeHandler hs p) = true) :
  lookup (snd (removeHandler hs p)) q = if String.eqb p q then None else lookup hs q.
Proof.
  induction hs as [|h t IH]; simpl in *; [discriminate|].
  inversion Hnd as [|x l Hnin Hnd']; subst.
  destruct (String.eqb_spec (prefix_ h) p) as [E|E].
  - destruct (removable_ h); simpl in *; [|discriminate]. subst p.
    destruct (String.eqb_spec (prefix_ h) q) as [E'|E'].
    + subst q. apply lookup_none_iff. exact Hnin.
    + reflexivity.
  - destruct (removeHandler t p) as [ok t'] eqn:Er. simpl in *.
    rewrite IH by assumption.
    destruct (String.eqb_spec (prefix_ h) q) as [E'|E'];
      destruct (String.eqb_spec p q) as [E''|E'']; try reflexivity.
    subst. contradiction.
Qed.

Lemma lookup_after_remove_witness :
  let hs := snd (addHandler Examples.builtins "/foo" "f" (Examples.ok_cb "f") true false) in
  NoDup (prefixes hs) /\ fst (removeHandler hs "/foo") = true /\
  lookup (snd (removeHandler hs "/foo")) "/foo" = None.
Proof.
  intros hs.
  assert (H1 : NoDup (prefixes hs)) by (simpl; repeat constructor; simpl; intuition discriminate).
  assert (H2 : fst (removeHandler hs "/foo") = true) by reflexivity.
  split; [exact H1|]. split; [exact H2|]. apply (lookup_after_remove hs "/foo" "/foo" H1 H2).
Defined.

(** The query string never influences handler selection: for a path
    without '?', runCallback on "path?query" invokes the handler found for
    the path (with the full path and query), or none when it is absent. *)
Lemma path_of_query (p q : string) (Hp : ~ In "?"%char (list_ascii_of_string p)) :
  path_of (p +s+ "?" +s+ q) = p.
Proof.
  induction p as [|c r IH]; simpl in *; [reflexivity|].
  destruct (Ascii.eqb_spec c "?"%char) as [E|E]; [exfalso; auto|].
  rewrite IH by auto. reflexivity.
Qed.

Theorem runCallback_ignores_query (hs : Handlers) (p q : string)
    (Hp : ~ In "?"%char (list_ascii_of_string p)) :
  dr_invoked (runCallback hs (p +s+ "?" +s+ q))
  = match lookup hs p with
    | Some h => [(prefix_ h, p +s+ "?" +s+ q)]
    | None => []
    end.
Proof.
  unfold runCallback. rewrite path_of_query by exact Hp.
  destruct (lookup hs p) as [h|]; [|reflexivity].
  destruct (handler_ h (p +s+ "?" +s+ q)). reflexivity.
Qed.

Lemma runCallback_ignores_query_witness :
  ~ In "?"%char (list_ascii_of_string "/stats") /\
  dr_invoked (runCallback Examples.builtins ("/stats" +s+ "?" +s+ "format=json"))
  = [("/stats", "/stats?format=json")].
Proof.
  assert (H : ~ In "?"%char (list_ascii_of_string "/stats")) by (simpl; intuition discriminate).
  split; [exact H|]. rewrite (runCallback_ignores_query Examples.builtins "/stats" "format=json" H).
  reflexivity.
Defined.

End RegistryExtra.

Module SortExtra.
Import Admin Dispatch RegistryFacts.

Lemma string_compare_le_trans (a b c : string) :
  String.compare a b <> Gt -> String.compare b c <> Gt -> String.compare a c <> Gt.
Proof.
  revert b c. induction a as [|x a IH]; intros [|y b] [|z c]; simpl; try congruence.
  unfold Ascii.compare.
  destruct (N.compare_spec (N_of_ascii x) (N_of_ascii y)) as [Exy|Lxy|Gxy];
  destruct (N.compare_spec (N_of_ascii y) (N_of_ascii z)) as [Eyz|Lyz|Gyz];
  destruct (N.compare_spec (N_of_ascii x) (N_of_ascii z)) as [Exz|Lxz|Gxz];
    try congruence; try lia.
  apply IH.
Qed.

Lemma prefix_le_trans (a b c : UrlHandler) :
  prefix_le a b -> prefix_le b c -> prefix_le a c.
Proof.
  unfold prefix_le, String.leb.
  destruct (String.compare (prefix_ a) (prefix_ b)) eqn:E1; try discriminate;
  destruct (String.compare (prefix_ b) (prefix_ c)) eqn:E2; try discriminate;
  destruct (String.compare (prefix_ a) (prefix_ c)) eqn:E3; try reflexivity;
  exfalso; apply (string_compare_le_trans (prefix_ a) (prefix_ b) (prefix_ c)); congruence.
Qed.

Lemma sorted_unique (l1 l2 : Handlers) :
  StronglySorted prefix_le l1 -> StronglySorted prefix_le l2 ->
  NoDup (prefixes l1) -> Permutation l1 l2 -> l1 = l2.
Proof.
  revert l2. induction l1 as [|a l1 IH]; intros l2 S1 S2 Nd P.
  - symmetry. apply Permutation_nil. exact P.
  - destruct l2 as [|b l2]; [apply Permutation_sym, Permutation_nil in P; discriminate|].
    apply StronglySorted_inv in S1 as [S1 F1]. apply StronglySorted_inv in S2 as [S2 F2].
    inversion Nd as [|x l Hnin Nd']; subst.
    assert (Ha : In a (b :: l2)) by (apply (Permutation_in _ P); left; reflexivity).
    assert (Hb : In b (a :: l1)) by (apply (Permutation_in _ (Permutation_sym P)); left; reflexivity).
    assert (Eab : a = b).
    { destruct Ha as [Ha|Ha]; [congruence|]. destruct Hb as [Hb|Hb]; [congruence|].
      pose proof (proj1 (Forall_forall _ _) F1 b Hb) as Lab.
      pose proof (proj1 (Forall_forall _ _) F2 a Ha) as Lba.
      unfold prefix_le in *. pose proof (String.leb_antisym _ _ Lab Lba) as Ep.
      exfalso. apply Hnin. rewrite Ep. apply in_map. exact Hb. }
    subst b. f_equal. apply IH; auto. apply Permutation_cons_inv in P. exact P.
Qed.

(** The help page does not depend on the order in which handlers were
    registered: two registries holding the same handlers with distinct
    prefixes yield the same sortedHandlers and the same help page. *)
Theorem help_page_order_independent (hs1 hs2 : Handlers)
    (Hperm : Permutation hs1 hs2) (Hnd : NoDup (prefixes hs1)) :
  sortedHandlers hs1 = sortedHandlers hs2 /\ handlerHelp hs1 = handlerHelp hs2.
Proof.
  assert (E : sortedHandlers hs1 = sortedHandlers hs2).
  { apply sorted_unique.
    - apply Sorted_StronglySorted; [exact prefix_le_trans|apply sortedHandlers_sorted].
    - apply Sorted_StronglySorted; [exact prefix_le_trans|apply sortedHandlers_sorted].
    - eapply Permutation_NoDup; [|exact Hnd]. apply Permutation_map.
      apply Permutation_sym, sortedHandlers_perm.
    - eapply perm_trans; [apply sortedHandlers_perm|].
      eapply perm_trans; [exact Hperm|]. apply Permutation_sym, sortedHandlers_perm. }
  split; [exact E|]. unfold handlerHelp. rewrite E. reflexivity.
Qed.

Lemma help_page_order_independent_witness :
  Permutation Examples.builtins (rev Examples.builtins) /\
  NoDup (prefixes Examples.builtins) /\
  handlerHelp Examples.builtins = handlerHelp (rev Examples.builtins).
Proof.
  assert (H1 : Permutation Examples.builtins (rev Examples.builtins)) by apply Permutation_rev.
  assert (H2 : NoDup (prefixes Examples.builtins)) by (simpl; repeat constructor; simpl; intuition discriminate).
  split; [exact H1|]. split; [exact H2|].
  apply (help_page_order_independent _ _ H1 H2).
Defined.

End SortExtra.

Module PrometheusExtra.
Import Prometheus PrometheusFacts.

(** sanitizeName keeps the length of the name and yields only characters of
    [A-Za-z0-9_]; so every canonical name is "envoy_" followed by such
    characters. *)
Theorem sanitizeName_charset (s : string) :
  String.length (sanitizeName s) = String.length s /\
  (forall i c, String.get i (sanitizeName s) = Some c -> is_name_char c = true).
Proof.
  split.
  - induction s as [|c r IH]; simpl; congruence.
  - intros i c Hc. rewrite sanitizeName_get in Hc.
    destruct (String.get i s) as [c'|]; simpl in Hc; [|discriminate].
    injection Hc as <-. apply sanitize_char_name.
Qed.

Lemma emit_samples (kind : string) (samples : list MetricSample)
    (tracker resp t' r' : list string) :
  emit kind samples tracker resp = (t', r') ->
  length (filter (fun l => negb (is_type_line l)) r')
  = length (filter (fun l => negb (is_type_line l)) resp) + length samples.
Proof.
  revert tracker resp. induction samples as [|s rest IH]; intros tracker resp Hem;
    cbn [emit] in Hem.
  - injection Hem as <- <-. simpl. lia.
  - destruct (existsb (String.eqb (metricName (ms_name s))) tracker);
      rewrite (IH _ _ Hem), ?filter_app, ?length_app; simpl;
      rewrite ?sample_line_not, ?type_line_is; simpl; lia.
Qed.

(** Every input sample yields exactly one sample line: the response has as
    many non-TYPE lines as there are counters and gauges. *)
Theorem statsAsPrometheus_one_line_per_sample (counters gauges : list MetricSample) :
  length (filter (fun l => negb (is_type_line l)) (snd (statsAsPrometheus counters gauges)))
  = length counters + length gauges.
Proof.
  unfold statsAsPrometheus.
  destruct (emit "counter" counters [] []) as [t1 r1] eqn:E1.
  destruct (emit "gauge" gauges t1 r1) as [t2 r2] eqn:E2. simpl.
  rewrite (emit_samples _ _ _ _ _ _ E2), (emit_samples _ _ _ _ _ _ E1). simpl. lia.
Qed.

End PrometheusExtra.

Module LifecycleExtra.
Import Admin Dispatch Lifecycle LifecycleFacts.

Lemma runCallback_invoked_le (hs : Handlers) (pq : string) :
  length (dr_invoked (runCallback hs pq)) <= 1.
Proof.
  unfold runCallback. destruct (lookup hs (path_of pq)) as [h|]; simpl; [|lia].
  destruct (handler_ h pq). simpl. lia.
Qed.

Definition at_most_once (st : FilterState) : Prop :=
  (phase st = Dispatched /\ dispatches st = 1 /\ length (invocations st) <= 1) \/
  (phase st <> Dispatched /\ dispatches st = 0 /\ invocations st = []).

Lemma onComplete_at_most_once (hs : Handlers) (st : FilterState) :
  phase st <> Dispatched -> dispatches st = 0 -> invocations st = [] ->
  at_most_once (onComplete hs (set_complete st)).
Proof.
  intros P D I. unfold onComplete, set_complete; simpl.
  destruct (request_headers_ st) as [h|]; simpl.
  - left. rewrite D, I. simpl. split; [reflexivity|]. split; [reflexivity|].
    apply runCallback_invoked_le.
  - right. rewrite D, I. split; [discriminate|auto].
Qed.

Lemma step_at_most_once (hs : Handlers) (st : FilterState) (ev : Event) :
  at_most_once st -> at_most_once (step hs st ev).
Proof.
  intros [[P [D I]]|[P [D I]]].
  - rewrite step_dispatched by exact P. left. auto.
  - destruct st as [ph rh bb rsp invs n]; simpl in *. subst.
    destruct ev as [h es|d es|]; simpl.
    + destruct (phase_eqb ph AwaitingHeaders); [|right; auto].
      destruct es; [apply onComplete_at_most_once; simpl; auto; discriminate|].
      right. simpl. split; [discriminate|auto].
    + destruct (phase_eqb ph Buffering); [|right; auto].
      destruct es; [apply onComplete_at_most_once; simpl; auto; discriminate|].
      right. simpl. split; [discriminate|auto].
    + destruct (phase_eqb ph Buffering); [|right; auto].
      apply onComplete_at_most_once; simpl; auto.
Qed.

(** Whatever events the filter receives, it dispatches at most once and at
    most one handler runs. *)
Theorem dispatch_at_most_once (hs : Handlers) (evs : list Event) :
  dispatches (run hs initial_state evs) <= 1 /\
  length (invocations (run hs initial_state evs)) <= 1.
Proof.
  assert (H0 : forall st, at_most_once st -> at_most_once (run hs st evs)).
  { unfold run. induction evs as [|ev evs IH]; simpl; auto using step_at_most_once. }
  assert (H : at_most_once (run hs initial_state evs)).
  { apply H0. right. simpl. split; [discriminate|auto]. }
  destruct H as [[_ [D I]]|[_ [D I]]]; rewrite D; [split; [lia|exact I]|rewrite I; simpl; lia].
Qed.

Lemma step_incomplete (hs : Handlers) (st : FilterState) (ev : Event) :
  completes ev = false ->
  dispatches (step hs st ev) = dispatches st /\
  response (step hs st ev) = response st /\
  invocations (step hs st ev) = invocations st.
Proof.
  intros C. destruct ev as [h es|d es|]; simpl in C; [subst es|subst es|discriminate]; simpl.
  - destruct (phase_eqb (phase st) AwaitingHeaders); auto.
  - destruct (phase_eqb (phase st) Buffering); auto.
Qed.

(** A request that is torn down before it completes (no end_stream on
    headers or data, no trailers) never dispatches: no handler runs and no
    response is produced. *)
Theorem incomplete_request_no_dispatch (hs : Handlers) (evs : list Event)
    (Hincomplete : forallb (fun ev => negb (completes ev)) evs = true) :
  dispatches (run hs initial_state evs) = 0 /\
  response (run hs initial_state evs) = None /\
  invocations (run hs initial_state evs) = [].
Proof.
  assert (G : forall st, forallb (fun ev => negb (completes ev)) evs = true ->
            dispatches (run hs st evs) = dispatches st /\
            response (run hs st evs) = response st /\
            invocations (run hs st evs) = invocations st).
  { clear Hincomplete. unfold run. induction evs as [|ev evs IH]; intros st F; simpl in *; [auto|].
    apply andb_true_iff in F as [F1 F2]. apply negb_true_iff in F1.
    destruct (step_incomplete hs st ev F1) as [D [R I]].
    destruct (IH (step hs st ev) F2) as [D' [R' I']]. split; [|split]; congruence. }
  apply G. exact Hincomplete.
Qed.

Lemma incomplete_request_no_dispatch_witness :
  let evs := [DecodeHeaders (mkRequestHeaders "POST" "/healthcheck/fail") false;
              DecodeData "partial" false] in
  forallb (fun ev => negb (completes ev)) evs = true /\
  invocations (run Examples.builtins initial_state evs) = [].
Proof.
  intros evs. assert (H : forallb (fun ev => negb (completes ev)) evs = true) by reflexivity.
  split; [exact H|]. apply (incomplete_request_no_dispatch Examples.builtins evs H).
Defined.

End LifecycleExtra.
